(** * rustdoc implementor listings of identity.rs

    The four scripts under [docs/implementors/] are instances of one
    template:

<<
    (function() {var implementors = {};
    implementors[CRATE] = [ {text, synthetic, types}, ... ];
    ...
    if (window.register_implementors) {window.register_implementors(implementors);}
    else {window.pending_implementors = implementors;}})()
>>

    This development embeds the JavaScript values the scripts build, the
    assignments each script performs, and the evaluation of the script body
    against the global object [window], and proves the structural and
    behavioural properties of the listings.

    Modelling scope.  [window] is an ordinary extensible object whose
    properties are writable data properties (no accessors, no frozen
    slots), and the built-in prototypes are unmodified.  The registry is
    referenced by the local variable [implementors] only, until it is
    handed over, so objects are represented by their contents. *)

From Stdlib Require Import Floats.SpecFloat Ascii String.
From stdpp Require Import gmap strings list fin_maps.

Open Scope string_scope.
Set Warnings "-register-all,-clear-no-such-hyp".

(** ** JavaScript values *)

Module JS.

(** Identifier of a host function (a callable object installed by the
    page, e.g. the viewer's [register_implementors]). *)
Definition fid := nat.

(** The language types of ECMAScript.  Objects list their own string-keyed
    properties in insertion order, which is the order [for..in] and
    [Object.keys] observe. *)
Inductive value :=
| VUndef
| VNull
| VBool (b : bool)
| VNum (x : spec_float)
| VBigInt (n : Z)
| VStr (s : string)
| VSymbol (description : string)
| VArr (elems : list value)
| VObj (props : list (string * value))
| VFun (f : fid).

(** Induction on values that reaches the elements of arrays and the
    property values of objects. *)
Section DeepInduction.

Local Open Scope list_scope.

Variable P : value -> Prop.
Hypothesis HUndef : P VUndef.
Hypothesis HNull : P VNull.
Hypothesis HBool : forall b, P (VBool b).
Hypothesis HNum : forall x, P (VNum x).
Hypothesis HBigInt : forall n, P (VBigInt n).
Hypothesis HStr : forall s, P (VStr s).
Hypothesis HSymbol : forall s, P (VSymbol s).
Hypothesis HArr : forall l, Forall P l -> P (VArr l).
Hypothesis HObj : forall p, Forall (fun kv => P kv.2) p -> P (VObj p).
Hypothesis HFun : forall f, P (VFun f).


End DeepInduction.

(** ToBoolean: the test performed by [if (e)]. *)
Definition truthy (v : value) : bool :=
  match v with
  | VUndef | VNull => false
  | VBool b => b
  | VNum (S754_zero _) | VNum S754_nan => false
  | VNum _ => true
  | VBigInt n => negb (n =? 0)%Z
  | VStr s => negb (String.eqb s "")
  | VSymbol _ | VArr _ | VObj _ | VFun _ => true
  end.

(** IsCallable. *)
Definition callable (v : value) : option fid :=
  match v with
  | VFun f => Some f
  | _ => None
  end.





(** *** Property access on ordinary objects *)

(** [o[k]] on an own-property list; a missing property reads [undefined]. *)
Fixpoint get_prop (props : list (string * value)) (k : string) : value :=
  match props with
  | [] => VUndef
  | (k', v) :: rest => if String.eqb k' k then v else get_prop rest k
  end.

(** [o[k] = v]: an existing property keeps its position, a new one is
    appended. *)
Fixpoint set_prop (props : list (string * value)) (k : string) (v : value)
  : list (string * value) :=
  match props with
  | [] => [(k, v)]
  | (k', v') :: rest =>
      if String.eqb k' k then (k', v) :: rest
      else (k', v') :: set_prop rest k v
  end.

Definition keys (props : list (string * value)) : list string :=
  map fst props.

(** *** Keys on which an object created by [{}] behaves as its own
    property list

    Such an object inherits from [Object.prototype]: a read of one of the
    names below finds the inherited property when the object has none of
    its own, and an assignment to [__proto__] runs the inherited setter
    instead of creating a property.  Integer-like keys are enumerated
    before the others, in ascending order, not in insertion order. *)
Definition object_prototype_names : list string :=
  ["constructor"; "hasOwnProperty"; "isPrototypeOf"; "propertyIsEnumerable";
   "toLocaleString"; "toString"; "valueOf"; "__proto__";
   "__defineGetter__"; "__defineSetter__"; "__lookupGetter__";
   "__lookupSetter__"].

Definition inherited (k : string) : bool :=
  existsb (String.eqb k) object_prototype_names.





End JS.

Import JS.

(** ** The four listings

    Each script performs, in order, the assignments
    [implementors[CRATE] = [...]] recorded below; every right-hand side is
    the array literal of the source, field by field. *)

Module Listing.

Inductive file := DerefMut | TrySignature | TrySignatureMut | SetSignature.

#[global] Instance file_eq_dec : EqDecision file.
Proof. solve_decision. Defined.

Definition all_files : list file :=
  [DerefMut; TrySignature; TrySignatureMut; SetSignature].

(** [docs/implementors/core/ops/deref/trait.DerefMut.js] *)
Definition DerefMut_assignments : list (string * value) :=
  [ ("identity_core", VArr
      [ VObj [("text", VStr "impl DerefMut for Url");
              ("synthetic", VBool false); ("types", VArr [])];
        VObj [("text", VStr "impl DerefMut for Signature");
              ("synthetic", VBool false); ("types", VArr [])];
        VObj [("text", VStr "impl DerefMut for SignatureValue");
              ("synthetic", VBool false); ("types", VArr [])] ]);
    ("identity_credential", VArr
      [ VObj [("text", VStr "impl&lt;T&gt; DerefMut for VerifiableCredential&lt;T&gt;");
              ("synthetic", VBool false); ("types", VArr [])];
        VObj [("text", VStr "impl&lt;T, U&gt; DerefMut for VerifiablePresentation&lt;T, U&gt;");
              ("synthetic", VBool false); ("types", VArr [])] ]);
    ("identity_did", VArr
      [ VObj [("text", VStr "impl&lt;T&gt; DerefMut for DIDKey&lt;T&gt;");
              ("synthetic", VBool false); ("types", VArr [])];
        VObj [("text", VStr "impl&lt;T&gt; DerefMut for Properties&lt;T&gt;");
              ("synthetic", VBool false); ("types", VArr [])] ]);
    ("identity_iota", VArr
      [ VObj [("text", VStr "impl&lt;T&gt; DerefMut for MessageIndex&lt;T&gt;");
              ("synthetic", VBool false); ("types", VArr [])] ]) ].

(** [docs/implementors/identity_core/crypto/signature/traits/trait.TrySignature.js] *)
Definition TrySignature_assignments : list (string * value) :=
  [ ("identity_core", VArr []);
    ("identity_credential", VArr
      [ VObj [("text", VStr "impl&lt;T&gt; TrySignature for VerifiableCredential&lt;T&gt;");
              ("synthetic", VBool false); ("types", VArr [])];
        VObj [("text", VStr "impl&lt;T, U&gt; TrySignature for VerifiablePresentation&lt;T, U&gt;");
              ("synthetic", VBool false); ("types", VArr [])] ]);
    ("identity_did", VArr
      [ VObj [("text", VStr "impl&lt;T, U, V&gt; TrySignature for Document&lt;Properties&lt;T&gt;, U, V&gt;");
              ("synthetic", VBool false); ("types", VArr [])];
        VObj [("text", VStr "impl&lt;T&gt; TrySignature for Properties&lt;T&gt;");
              ("synthetic", VBool false); ("types", VArr [])] ]);
    ("identity_iota", VArr
      [ VObj [("text", VStr "impl TrySignature for IotaDocument");
              ("synthetic", VBool false); ("types", VArr [])];
        VObj [("text", VStr "impl TrySignature for DocumentDiff");
              ("synthetic", VBool false); ("types", VArr [])] ]) ].

(** [docs/implementors/identity_core/crypto/signature/traits/trait.TrySignatureMut.js] *)
Definition TrySignatureMut_assignments : list (string * value) :=
  [ ("identity_core", VArr []);
    ("identity_credential", VArr
      [ VObj [("text", VStr "impl&lt;T&gt; TrySignatureMut for VerifiableCredential&lt;T&gt;");
              ("synthetic", VBool false); ("types", VArr [])];
        VObj [("text", VStr "impl&lt;T, U&gt; TrySignatureMut for VerifiablePresentation&lt;T, U&gt;");
              ("synthetic", VBool false); ("types", VArr [])] ]);
    ("identity_did", VArr
      [ VObj [("text", VStr "impl&lt;T, U, V&gt; TrySignatureMut for Document&lt;Properties&lt;T&gt;, U, V&gt;");
              ("synthetic", VBool false); ("types", VArr [])];
        VObj [("text", VStr "impl&lt;T&gt; TrySignatureMut for Properties&lt;T&gt;");
              ("synthetic", VBool false); ("types", VArr [])] ]);
    ("identity_iota", VArr
      [ VObj [("text", VStr "impl TrySignatureMut for DocumentDiff");
              ("synthetic", VBool false); ("types", VArr [])];
        VObj [("text", VStr "impl TrySignatureMut for Document");
              ("synthetic", VBool false); ("types", VArr [])] ]) ].

(** [docs/implementors/identity_core/crypto/signature/traits/trait.SetSignature.js] *)
Definition SetSignature_assignments : list (string * value) :=
  [ ("identity_core", VArr []);
    ("identity_credential", VArr
      [ VObj [("text", VStr "impl&lt;T&gt; SetSignature for VerifiableCredential&lt;T&gt;");
              ("synthetic", VBool false); ("types", VArr [])];
        VObj [("text", VStr "impl&lt;T, U&gt; SetSignature for VerifiablePresentation&lt;T, U&gt;");
              ("synthetic", VBool false); ("types", VArr [])] ]);
    ("identity_did", VArr
      [ VObj [("text", VStr "impl&lt;T, U, V&gt; SetSignature for Document&lt;Properties&lt;T&gt;, U, V&gt;");
              ("synthetic", VBool false); ("types", VArr [])];
        VObj [("text", VStr "impl&lt;T&gt; SetSignature for Properties&lt;T&gt;");
              ("synthetic", VBool false); ("types", VArr [])] ]);
    ("identity_iota", VArr
      [ VObj [("text", VStr "impl SetSignature for IotaDocument");
              ("synthetic", VBool false); ("types", VArr [])];
        VObj [("text", VStr "impl SetSignature for DocumentDiff");
              ("synthetic", VBool false); ("types", VArr [])] ]) ].

Definition assignments (f : file) : list (string * value) :=
  match f with
  | DerefMut => DerefMut_assignments
  | TrySignature => TrySignature_assignments
  | TrySignatureMut => TrySignatureMut_assignments
  | SetSignature => SetSignature_assignments
  end.

(** The trait a file indexes, as its path names it ([trait.NAME.js]). *)
Definition trait_name (f : file) : string :=
  match f with
  | DerefMut => "DerefMut"
  | TrySignature => "TrySignature"
  | TrySignatureMut => "TrySignatureMut"
  | SetSignature => "SetSignature"
  end.

(** [var implementors = {}; implementors[k1] = v1; ...]: the object held
    by the local variable once all assignments have run. *)
Definition assign_all (o stmts : list (string * value)) : list (string * value) :=
  fold_left (fun o kv => set_prop o kv.1 kv.2) stmts o.

Definition build (stmts : list (string * value)) : list (string * value) :=
  assign_all [] stmts.


Definition registry (f : file) : value := VObj (build (assignments f)).

End Listing.

Import Listing.

(** ** Evaluation of a script against [window] *)

Module Script.

(** Abrupt completions: the [TypeError] the language raises itself, or a
    value thrown by host code. *)
Inductive exn :=
| TypeError (msg : string)
| Thrown (v : value).

Inductive completion (A : Type) :=
| Normal (a : A)
| Throw (e : exn).
Arguments Normal {A} a.
Arguments Throw {A} e.

(** What the script itself does to the outside world, in program order. *)
Inductive event :=
| EvCall (f : fid) (args : list value)
| EvWrite (k : string) (v : value).

(** The global object, and the trace of the script's own actions. *)
Record state := State { win : gmap string value; log : list event }.

(** State that survives an exception, as in the language: a [throw] keeps
    every write made before it. *)
Definition M (A : Type) : Type := state -> completion A * state.

Definition ret {A} (a : A) : M A := fun s => (Normal a, s).

Definition throw {A} (e : exn) : M A := fun s => (Throw e, s).

Definition bind {A B} (m : M A) (k : A -> M B) : M B :=
  fun s =>
    match m s with
    | (Normal a, s') => k a s'
    | (Throw e, s') => (Throw e, s')
    end.

#[global] Instance M_ret : MRet M := @ret.
#[global] Instance M_bind : MBind M := fun A B k m => bind m k.

(** [window[k]] on a missing property reads [undefined]. *)
Definition window_get (w : gmap string value) (k : string) : value :=
  default VUndef (w !! k).

Definition calls_of (l : list event) : list (fid * list value) :=
  omap (fun e => match e with EvCall f a => Some (f, a) | _ => None end) l.

Definition writes_of (l : list event) : list (string * value) :=
  omap (fun e => match e with EvWrite k v => Some (k, v) | _ => None end) l.


Section Host.

(** The page's functions: [host f args w] runs function [f] on [args] with
    [this = window] in window [w]; it returns or throws, and leaves a
    window. *)
Variable host : fid -> list value -> gmap string value ->
                completion value * gmap string value.

(** [window.k] *)
Definition get_window (k : string) : M value :=
  fun s => (Normal (window_get (win s) k), s).

(** [window.k = v] *)
Definition set_window (k : string) (v : value) : M unit :=
  fun s => (Normal tt, State (<[k := v]> (win s)) (log s ++ [EvWrite k v])).

(** Entering host function [f]: control leaves the script until [f]
    returns or throws. *)
Definition invoke (f : fid) (args : list value) : M value :=
  fun s =>
    let r := host f args (win s) in
    (r.1, State r.2 (log s ++ [EvCall f args])).

(** [window.k(args)]: the property is read, and called if it is callable. *)
Definition call_window (k : string) (args : list value) : M value :=
  c ← get_window k;
  match callable c return M value with
  | None => throw (TypeError ("window." ++ k ++ " is not a function"))
  | Some f => invoke f args
  end.

(** The body of the immediately-invoked function, for the assignments
    [stmts] of a file. *)
Definition implementors_js (stmts : list (string * value)) : M unit :=
  let implementors := build stmts in
  c ← get_window "register_implementors";
  if truthy c return M unit then
    call_window "register_implementors" [VObj implementors];; mret tt
  else
    set_window "pending_implementors" (VObj implementors).

(** Evaluating one file in window [w]. *)
Definition run (f : file) (w : gmap string value) : completion unit * state :=
  implementors_js (assignments f) (State w []).

(** Evaluating several files one after the other, as successive [<script>]
    elements: each starts in the window the previous one left, whether
    that one completed normally or not. *)
Fixpoint run_all (fs : list file) (w : gmap string value)
  : list (completion unit) * gmap string value :=
  match fs with
  | [] => ([], w)
  | f :: fs =>
      let r := run f w in
      let rest := run_all fs (win r.2) in
      (r.1 :: rest.1, rest.2)
  end.

(** The actions the scripts of [fs] perform, in the order they happen. *)
Fixpoint trace_all (fs : list file) (w : gmap string value) : list event :=
  match fs with
  | [] => []
  | f :: fs =>
      let r := run f w in
      log r.2 ++ trace_all fs (win r.2)
  end.

(** The three ways the handshake can go in window [w], with the
    completion and the state each leaves. *)
Inductive handshake (f : file) (w : gmap string value)
  : completion unit * state -> Prop :=
| hs_called g :
    window_get w "register_implementors" = VFun g ->
    handshake f w
      (match (host g [registry f] w).1 with
       | Normal _ => Normal tt
       | Throw e => Throw e
       end,
       State (host g [registry f] w).2 [EvCall g [registry f]])
| hs_not_callable :
    truthy (window_get w "register_implementors") = true ->
    callable (window_get w "register_implementors") = None ->
    handshake f w
      (Throw (TypeError "window.register_implementors is not a function"),
       State w [])
| hs_stashed :
    truthy (window_get w "register_implementors") = false ->
    handshake f w
      (Normal tt,
       State (<["pending_implementors" := registry f]> w)
             [EvWrite "pending_implementors" (registry f)]).

(** The invoked function returns, rather than throws. *)
Definition returns_normally (g : fid) (args : list value)
           (w : gmap string value) : Prop :=
  exists v, (host g args w).1 = Normal v.

End Host.

(** A page function that does nothing and returns [undefined]. *)
Definition quiet_host : fid -> list value -> gmap string value ->
                        completion value * gmap string value :=
  fun _ _ w => (Normal VUndef, w).

End Script.

Import Script.

(** ** Implementor descriptors

    The [text] of a record is the HTML rendering of an impl header,
<<
    impl[&lt;G, ...&gt;] TRAIT for TYPE      TYPE ::= NAME[&lt;TYPE, ...&gt;]
>>
    with the angle brackets of generics escaped as entities. *)

Module Descriptor.

Inductive token := TIdent (s : string) | TLt | TGt | TComma.

Inductive ty := Ty (name : string) (args : list ty).

Record impl := Impl { generics : list string; trait : string; self_ty : ty }.

Definition is_ident_char (c : ascii) : bool :=
  let n := nat_of_ascii c in
  (((65 <=? n) && (n <=? 90)) || ((97 <=? n) && (n <=? 122))
   || ((48 <=? n) && (n <=? 57)) || (n =? 95))%nat.

Definition flush (cur : string) (ts : list token) : list token :=
  match cur with
  | "" => ts
  | _ => TIdent cur :: ts
  end.

(** Lexer.  Blanks separate tokens; [&lt;] and [&gt;] are the only
    entities; any other character outside identifiers, and in particular a
    raw angle bracket or a stray ampersand, is rejected. *)
Fixpoint lex (s : string) (cur : string) : option (list token) :=
  match s with
  | "" => Some (flush cur [])
  | String c rest =>
      if Ascii.eqb c "&" then
        match rest with
        | String c1 (String c2 (String c3 rest')) =>
            if Ascii.eqb c2 "t" && Ascii.eqb c3 ";" then
              if Ascii.eqb c1 "l" then
                ts ← lex rest' ""; Some (flush cur (TLt :: ts))
              else if Ascii.eqb c1 "g" then
                ts ← lex rest' ""; Some (flush cur (TGt :: ts))
              else None
            else None
        | _ => None
        end
      else if Ascii.eqb c "," then
        ts ← lex rest ""; Some (flush cur (TComma :: ts))
      else if Ascii.eqb c " " then
        ts ← lex rest ""; Some (flush cur ts)
      else if is_ident_char c then lex rest (cur ++ String c "")
      else None
  end.

(** [G, ..., G &gt;] *)
Fixpoint parse_generics (ts : list token) : option (list string * list token) :=
  match ts with
  | TIdent g :: TGt :: rest => Some ([g], rest)
  | TIdent g :: TComma :: rest =>
      '(gs, rest') ← parse_generics rest; Some (g :: gs, rest')
  | _ => None
  end.

(** Types, and the tail [, TYPE ... &gt;] of an argument list. *)
Fixpoint parse_ty (fuel : nat) (ts : list token) : option (ty * list token) :=
  match fuel with
  | O => None
  | S fuel =>
      match ts with
      | TIdent x :: TLt :: ts1 =>
          '(a, ts2) ← parse_ty fuel ts1;
          '(l, ts3) ← parse_args fuel ts2;
          Some (Ty x (a :: l), ts3)
      | TIdent x :: ts1 => Some (Ty x [], ts1)
      | _ => None
      end
  end
with parse_args (fuel : nat) (ts : list token) : option (list ty * list token) :=
  match fuel with
  | O => None
  | S fuel =>
      match ts with
      | TGt :: ts1 => Some ([], ts1)
      | TComma :: ts1 =>
          '(a, ts2) ← parse_ty fuel ts1;
          '(l, ts3) ← parse_args fuel ts2;
          Some (a :: l, ts3)
      | _ => None
      end
  end.

Definition parse_header (gs : list string) (ts : list token) : option impl :=
  match ts with
  | TIdent tr :: TIdent "for" :: rest =>
      match parse_ty (S (length rest)) rest with
      | Some (t, []) => Some (Impl gs tr t)
      | _ => None
      end
  | _ => None
  end.

Definition parse_tokens (ts : list token) : option impl :=
  match ts with
  | TIdent "impl" :: TLt :: rest =>
      '(gs, rest') ← parse_generics rest; parse_header gs rest'
  | TIdent "impl" :: rest => parse_header [] rest
  | _ => None
  end.

Definition parse (text : string) : option impl :=
  ts ← lex text ""; parse_tokens ts.

(** Printing, with the brackets [lt] and [gt] of the chosen notation. *)
Fixpoint join (sep : string) (l : list string) : string :=
  match l with
  | [] => ""
  | [x] => x
  | x :: l => x ++ sep ++ join sep l
  end.

Definition bracket (lt gt : string) (l : list string) : string :=
  match l with
  | [] => ""
  | _ => lt ++ join ", " l ++ gt
  end.

Fixpoint show_ty (lt gt : string) (t : ty) : string :=
  match t with
  | Ty x args => x ++ bracket lt gt (map (show_ty lt gt) args)
  end.

Definition show (lt gt : string) (d : impl) : string :=
  "impl" ++ bracket lt gt (generics d) ++ " " ++ trait d ++ " for "
  ++ show_ty lt gt (self_ty d).

(** The escaped form stored in the listings, and the Rust source form. *)
Definition render : impl -> string := show "&lt;" "&gt;".
Definition rust_ty : ty -> string := show_ty "<" ">".

(** A well-formed descriptor parses, and is the rendering of what it
    parses to. *)
Definition well_formed (text : string) : bool :=
  match parse text with
  | Some d => String.eqb (render d) text
  | None => false
  end.

Definition raw_angle (c : ascii) : bool :=
  Ascii.eqb c "<" || Ascii.eqb c ">".

Fixpoint has_raw_angle (s : string) : bool :=
  match s with
  | "" => false
  | String c rest => raw_angle c || has_raw_angle rest
  end.

(** Replacing the trait of a descriptor. *)
Definition with_trait (tr : string) (d : impl) : impl :=
  Impl (generics d) tr (self_ty d).

End Descriptor.

Import Descriptor.

(** ** Reading a listing back *)

Module Access.

(** The elements of an array; anything else has none. *)
Definition elements (v : value) : list value :=
  match v with
  | VArr l => l
  | _ => []
  end.

(** [registry[crate]] as a list of records. *)
Definition crate_list (f : file) (crate : string) : list value :=
  elements (get_prop (build (assignments f)) crate).

(** [record.text], when it is a string. *)
Definition text_of (r : value) : option string :=
  match r with
  | VObj p => match get_prop p "text" with VStr t => Some t | _ => None end
  | _ => None
  end.

(** Every record of a file, crate after crate, and their texts. *)
Definition records (f : file) : list value :=
  concat (map (fun kv => elements kv.2) (build (assignments f))).

Definition texts (f : file) : list string := omap text_of (records f).

(** The descriptor a record carries. *)
Definition descriptor_of (r : value) : option impl :=
  t ← text_of r; parse t.

(** The record with the trait of its descriptor replaced by [tr]. *)
Definition retrait (tr : string) (r : value) : option value :=
  match r with
  | VObj p =>
      d ← descriptor_of r;
      Some (VObj (set_prop p "text" (VStr (render (with_trait tr d)))))
  | _ => None
  end.

(** The implementing types of a crate, in Rust notation. *)
Definition implementing_types (f : file) (crate : string) : option (list string) :=
  mapM (fun r => d ← descriptor_of r; Some (rust_ty (self_ty d)))
       (crate_list f crate).

(** The literal [{"text": t, "synthetic": false, "types": []}]. *)
Definition record_shape (r : value) : Prop :=
  exists t, r = VObj [("text", VStr t); ("synthetic", VBool false);
                      ("types", VArr [])].

(** A record that reads back as an impl of trait [tr]: implementing type,
    trait and generic parameters are recovered by [parse], and printing
    them gives the text again. *)
Definition names_trait (tr : string) (r : value) : bool :=
  match text_of r with
  | Some t =>
      match parse t with
      | Some d => String.eqb (render d) t && String.eqb (trait d) tr
      | None => false
      end
  | None => false
  end.

(** Every key of [o] holds an array of records naming [tr]. *)
Definition listing_names (tr : string) (o : list (string * value)) : bool :=
  forallb (fun kv => match kv.2 with
                     | VArr l => forallb (names_trait tr) l
                     | _ => false
                     end) o.

Definition crates : list string :=
  ["identity_core"; "identity_credential"; "identity_did"; "identity_iota"].

Definition traits : list string :=
  ["DerefMut"; "TrySignature"; "TrySignatureMut"; "SetSignature"].

End Access.

Import Access.

(** * Properties *)

(** ** Objects built by successive assignments *)

Section Objects.

Local Open Scope list_scope.

Implicit Types (o stmts : list (string * value)) (k : string) (v : value).



(** Assigning a key the object does not have appends it. *)
Lemma set_prop_fresh o k v : k ∉ keys o -> set_prop o k v = o ++ [(k, v)].
Proof.
  induction o as [|[k' v'] o IH]; simpl; [done|].
  intros Hn. apply not_elem_of_cons in Hn as [Hne Hn].
  destruct (String.eqb k' k) eqn:E.
  - apply String.eqb_eq in E. congruence.
  - by rewrite IH.
Qed.

(** Assigning a key the object has keeps the key list. *)
Lemma set_prop_keys_old o k v : k ∈ keys o -> keys (set_prop o k v) = keys o.
Proof.
  induction o as [|[k' v'] o IH]; simpl.
  - intros H. by apply elem_of_nil in H.
  - intros H. destruct (String.eqb k' k) eqn:E; simpl; [done|].
    apply elem_of_cons in H as [->|H].
    + by rewrite String.eqb_refl in E.
    + f_equal. by apply IH.
Qed.

Lemma set_prop_key_set o k v :
  (list_to_set (keys (set_prop o k v)) : gset string)
  = {[k]} ∪ list_to_set (keys o).
Proof.
  destruct (decide (k ∈ keys o)) as [Hin|Hn].
  - rewrite set_prop_keys_old by done.
    apply (elem_of_list_to_set (C := gset string)) in Hin. set_solver.
  - rewrite set_prop_fresh by done. unfold keys.
    rewrite map_app, list_to_set_app_L. simpl. set_solver.
Qed.

Lemma set_prop_NoDup o k v : NoDup (keys o) -> NoDup (keys (set_prop o k v)).
Proof.
  intros Hnd. destruct (decide (k ∈ keys o)) as [Hin|Hn].
  - by rewrite set_prop_keys_old.
  - rewrite set_prop_fresh by done. unfold keys. rewrite map_app. simpl.
    apply NoDup_app. split; [done|]. split.
    + intros x Hx Hx'. apply list_elem_of_singleton in Hx'. by subst.
    + apply NoDup_singleton.
Qed.

Lemma assign_all_distinct o stmts :
  NoDup (keys o ++ map fst stmts) -> assign_all o stmts = o ++ stmts.
Proof.
  revert o. induction stmts as [|[k v] stmts IH]; intros o Hnd; simpl.
  - by rewrite app_nil_r.
  - assert (Hk : k ∉ keys o).
    { apply NoDup_app in Hnd as (_ & Hd & _). intros Hin.
      apply (Hd k Hin). simpl. left. }
    rewrite set_prop_fresh by done. rewrite IH.
    + by rewrite <- app_assoc.
    + unfold keys. rewrite map_app. simpl. by rewrite <- app_assoc.
Qed.

(** A script whose assignments name pairwise distinct keys builds exactly
    the object that lists them in program order. *)
Lemma build_distinct stmts : NoDup (map fst stmts) -> build stmts = stmts.
Proof. intros Hnd. by apply (assign_all_distinct []). Qed.

(** Whatever the assignments, the object built never lists a key twice, and
    its keys are the assigned ones. *)
Lemma assign_all_NoDup o stmts :
  NoDup (keys o) -> NoDup (keys (assign_all o stmts)).
Proof.
  revert o. induction stmts as [|[k v] stmts IH]; intros o Hnd; simpl; [done|].
  apply IH. by apply set_prop_NoDup.
Qed.

Lemma assign_all_key_set o stmts :
  (list_to_set (keys (assign_all o stmts)) : gset string)
  = list_to_set (keys o) ∪ list_to_set (map fst stmts).
Proof.
  revert o. induction stmts as [|[k v] stmts IH]; intros o; simpl.
  - set_solver.
  - rewrite IH, set_prop_key_set. set_solver.
Qed.

Lemma build_NoDup stmts : NoDup (keys (build stmts)).
Proof. apply (assign_all_NoDup []). constructor. Qed.

Lemma build_key_set stmts :
  (list_to_set (keys (build stmts)) : gset string) = list_to_set (map fst stmts).
Proof.
  unfold build. rewrite assign_all_key_set. set_solver.
Qed.

End Objects.

(** ** The lexer rejects raw angle brackets *)

Section Lexer.

Lemma raw_angle_rejected c rest cur :
  raw_angle c = true -> lex (String c rest) cur = None.
Proof.
  unfold raw_angle. intros H. apply orb_true_iff in H as [H|H];
    apply Ascii.eqb_eq in H; subst c; reflexivity.
Qed.

Lemma lex_no_raw_angle_upto (n : nat) :
  forall s cur ts,
    String.length s <= n -> lex s cur = Some ts -> has_raw_angle s = false.
Proof.
  induction n as [n IH] using lt_wf_ind.
  intros [|c rest] cur ts Hlen Hlex; [done|].
  simpl in Hlen. cbn [has_raw_angle].
  destruct (raw_angle c) eqn:Hc.
  { by rewrite raw_angle_rejected in Hlex. }
  cbn [orb]. cbn [lex] in Hlex.
  destruct (Ascii.eqb c "&").
  - destruct rest as [|c1 [|c2 [|c3 rest']]]; try done.
    destruct (Ascii.eqb c2 "t" && Ascii.eqb c3 ";") eqn:E23; [|done].
    apply andb_true_iff in E23 as [E2 E3].
    apply Ascii.eqb_eq in E2, E3. subst c2 c3.
    assert (Htail : exists ts', lex rest' "" = Some ts').
    { destruct (Ascii.eqb c1 "l"); [|destruct (Ascii.eqb c1 "g"); [|done]];
        destruct (lex rest' "") as [ts'|]; try done; by exists ts'. }
    destruct Htail as [ts' Htail].
    assert (Hc1 : raw_angle c1 = false).
    { destruct (Ascii.eqb c1 "l") eqn:El.
      - apply Ascii.eqb_eq in El. by subst.
      - destruct (Ascii.eqb c1 "g") eqn:Eg; [|done].
        apply Ascii.eqb_eq in Eg. by subst. }
    cbn [has_raw_angle]. rewrite Hc1. cbn.
    apply (IH (String.length rest')) with (cur := "") (ts := ts');
      [simpl in Hlen; lia | lia | done].
  - destruct (Ascii.eqb c ",").
    { destruct (lex rest "") as [ts'|] eqn:E; [|done].
      by apply (IH (String.length rest)) with (cur := "") (ts := ts'); try lia. }
    destruct (Ascii.eqb c " ").
    { destruct (lex rest "") as [ts'|] eqn:E; [|done].
      by apply (IH (String.length rest)) with (cur := "") (ts := ts'); try lia. }
    destruct (is_ident_char c); [|done].
    by apply (IH (String.length rest)) with (cur := (cur ++ String c "")%string)
                                           (ts := ts); try lia.
Qed.

(** A text the lexer accepts has no raw [<] or [>]. *)
Lemma lex_no_raw_angle s cur ts : lex s cur = Some ts -> has_raw_angle s = false.
Proof. by apply (lex_no_raw_angle_upto (String.length s)). Qed.

(** Hence neither has a well-formed descriptor. *)
Lemma well_formed_no_raw_angle t : well_formed t = true -> has_raw_angle t = false.
Proof.
  unfold well_formed, parse. intros H.
  destruct (lex t "") as [ts|] eqn:E; [|done].
  by apply lex_no_raw_angle in E.
Qed.

End Lexer.

(** ** The contents of the four listings *)

Section Contents.

Local Open Scope list_scope.

Lemma get_prop_absent (o : list (string * value)) (k : string) :
  k ∉ keys o -> get_prop o k = VUndef.
Proof.
  induction o as [|[k' v] o IH]; simpl; [done|].
  intros Hn. apply not_elem_of_cons in Hn as [Hne Hn].
  destruct (String.eqb k' k) eqn:E; [|by apply IH].
  apply String.eqb_eq in E. congruence.
Qed.

Lemma assignment_keys (f : file) : map fst (assignments f) = crates.
Proof. by destruct f. Qed.

Lemma crates_NoDup : NoDup crates.
Proof.
  unfold crates.
  repeat (apply NoDup_cons_2;
          [rewrite ?elem_of_cons, elem_of_nil; intuition congruence|]).
  apply NoDup_nil_2.
Qed.

(** Each script builds the object its assignments spell out. *)
Lemma build_assignments (f : file) : build (assignments f) = assignments f.
Proof. apply build_distinct. rewrite assignment_keys. apply crates_NoDup. Qed.

(** What [names_trait] checks. *)
Lemma names_trait_spec (tr : string) (r : value) :
  names_trait tr r = true ->
  exists t d, text_of r = Some t /\ parse t = Some d /\ render d = t /\ trait d = tr.
Proof.
  unfold names_trait. destruct (text_of r) as [t|]; [|done].
  destruct (parse t) as [d|] eqn:Hd; [|done].
  intros H. apply andb_true_iff in H as [H1 H2].
  apply String.eqb_eq in H1, H2. exists t, d. auto.
Qed.

Lemma listing_names_spec (tr : string) (o : list (string * value)) :
  listing_names tr o = true ->
  Forall (fun kv => exists l, kv.2 = VArr l /\
            Forall (fun r => exists t d, text_of r = Some t /\ parse t = Some d
                                         /\ render d = t /\ trait d = tr) l) o.
Proof.
  unfold listing_names. rewrite forallb_forall, Forall_forall.
  intros H kv Hin. apply list_elem_of_In in Hin. specialize (H kv Hin).
  destruct kv.2 as [| | | | | | |l| |] eqn:E; try done.
  exists l. split; [done|]. rewrite forallb_forall in H.
  apply Forall_forall. intros r Hr. apply list_elem_of_In in Hr.
  by apply names_trait_spec, H.
Qed.

End Contents.

(** C3: every file builds a registry whose keys are exactly identity_core,
    identity_credential, identity_did and identity_iota, and among the
    traits DerefMut, TrySignature, TrySignatureMut and SetSignature the
    file's own trait is the only one all of its records implement. *)
Theorem crate_key_set (f : file) :
  keys (build (assignments f)) = crates /\
  (list_to_set (keys (build (assignments f))) : gset string)
  = {["identity_core"; "identity_credential"; "identity_did"; "identity_iota"]} /\
  List.filter (fun tr => forallb (names_trait tr) (records f)) traits
  = [trait_name f].
Proof.
  split; [|split].
  - rewrite build_assignments. apply assignment_keys.
  - rewrite build_key_set, assignment_keys. unfold crates. set_solver.
  - by destruct f; vm_compute.
Qed.

(** C4: within every file the crate keys are pairwise distinct; no crate
    name is assigned an implementor list twice. *)
Theorem crate_keys_distinct (f : file) :
  NoDup (map fst (assignments f)) /\ NoDup (keys (build (assignments f))).
Proof.
  split.
  - rewrite assignment_keys. apply crates_NoDup.
  - apply build_NoDup.
Qed.

(** C5: every crate of every file maps to an array of records, in source
    order, and from every record the generic parameters, the trait and the
    implementing type are recovered by parsing its text; the trait is the
    one the file indexes. *)
Theorem records_recoverable (f : file) :
  Forall (fun kv => exists l, kv.2 = VArr l /\
            Forall (fun r => exists t d, text_of r = Some t /\ parse t = Some d
                                         /\ render d = t /\ trait d = trait_name f) l)
         (build (assignments f)).
Proof. apply listing_names_spec. by destruct f; vm_compute. Qed.

(** C6: every record has a text, no text contains a raw angle bracket,
    and every text is a well-formed impl descriptor with its angle
    brackets written as the entities. *)
Theorem texts_escaped (f : file) :
  length (texts f) = length (records f) /\
  Forall (fun t => has_raw_angle t = false /\ well_formed t = true) (texts f).
Proof.
  split; [by destruct f|].
  assert (H : Forall (fun t => well_formed t = true) (texts f)).
  { apply Forall_forall. intros t Ht.
    assert (Hall : forallb well_formed (texts f) = true) by (by destruct f; vm_compute).
    rewrite forallb_forall in Hall. apply Hall. by apply list_elem_of_In. }
  eapply Forall_impl; [exact H|]. simpl. intros t Ht. split; [|done].
  by apply well_formed_no_raw_angle.
Qed.

(** C9: every record of every file is the object literal with exactly the
    fields text, synthetic and types, synthetic being false and types the
    empty array; TrySignature, TrySignatureMut and SetSignature map
    identity_core to the empty list. *)
Theorem record_fields (f : file) :
  Forall (fun kv => exists l, kv.2 = VArr l /\ Forall record_shape l)
         (build (assignments f)) /\
  Forall (fun g => get_prop (build (assignments g)) "identity_core" = VArr [])
         [TrySignature; TrySignatureMut; SetSignature].
Proof.
  split.
  - rewrite build_assignments.
    destruct f; cbv [assignments DerefMut_assignments TrySignature_assignments
                     TrySignatureMut_assignments SetSignature_assignments];
      repeat match goal with
             | |- Forall _ _ => constructor
             | |- record_shape _ => eexists; reflexivity
             | |- exists l, _ /\ _ => eexists; split; [reflexivity|]
             end.
  - repeat (constructor; [by rewrite build_assignments|]). constructor.
Qed.

(** C8: crate by crate, the records of trait.TrySignature.js with the trait
    name replaced are the records of trait.SetSignature.js, in the same
    order; the implementing types are those listed. *)
Theorem signature_listings_coincide :
  (forall crate : string,
     mapM (retrait "SetSignature") (crate_list TrySignature crate)
     = Some (crate_list SetSignature crate)) /\
  Forall (fun f =>
     implementing_types f "identity_core" = Some [] /\
     implementing_types f "identity_credential"
       = Some ["VerifiableCredential<T>"; "VerifiablePresentation<T, U>"] /\
     implementing_types f "identity_did"
       = Some ["Document<Properties<T>, U, V>"; "Properties<T>"] /\
     implementing_types f "identity_iota"
       = Some ["IotaDocument"; "DocumentDiff"])
    [TrySignature; SetSignature].
Proof.
  split.
  - intros crate. unfold crate_list.
    destruct (decide (crate ∈ crates)) as [Hin|Hn].
    + unfold crates in Hin.
      repeat (apply elem_of_cons in Hin as [->|Hin]); try by vm_compute.
      by apply elem_of_nil in Hin.
    + rewrite !get_prop_absent; [done| |];
        by rewrite build_assignments; unfold keys; rewrite assignment_keys.
  - repeat (constructor; [by vm_compute|]). constructor.
Qed.

(** ** The handshake with the page *)

Section Handshake.

Variable host : fid -> list value -> gmap string value ->
                completion value * gmap string value.

Implicit Types (f g : file) (w : gmap string value).

Lemma callable_truthy (v : value) (h : fid) : callable v = Some h -> truthy v = true.
Proof. by destruct v. Qed.

Lemma callable_VFun (v : value) (h : fid) : callable v = Some h -> v = VFun h.
Proof. destruct v; try done. by intros [= ->]. Qed.

(** The script reads one property and then takes exactly one of three
    paths. *)
Lemma run_handshake f w : handshake host f w (run host f w).
Proof.
  unfold run, implementors_js, call_window, get_window, set_window, invoke.
  unfold mbind, M_bind, bind, mret, M_ret, ret, throw. cbn [win log].
  destruct (truthy (window_get w "register_implementors")) eqn:Ht.
  - destruct (callable (window_get w "register_implementors")) as [h|] eqn:Hc.
    + apply callable_VFun in Hc as Hv.
      pose proof (hs_called host f w h Hv) as H.
      cbn [win log]. rewrite Hc. cbn [win log app] in *. unfold registry in H.
      by destruct (host h [VObj (build (assignments f))] w) as [[x|e] w'].
    + cbn [win log]. rewrite Hc. by apply hs_not_callable.
  - by apply hs_stashed.
Qed.

Lemma run_falsy f w :
  truthy (window_get w "register_implementors") = false ->
  run host f w = (Normal tt,
                  State (<["pending_implementors" := registry f]> w)
                        [EvWrite "pending_implementors" (registry f)]).
Proof.
  intros Hf. destruct (run_handshake f w) as [h Hv|Ht Hc|_]; [|congruence|done].
  by rewrite Hv in Hf.
Qed.

Lemma run_function f w h :
  window_get w "register_implementors" = VFun h ->
  run host f w = (match (host h [registry f] w).1 with
                  | Normal _ => Normal tt
                  | Throw e => Throw e
                  end,
                  State (host h [registry f] w).2 [EvCall h [registry f]]).
Proof.
  intros Hv. destruct (run_handshake f w) as [h' Hv'|Ht Hc|Hf].
  - rewrite Hv in Hv'. by injection Hv' as ->.
  - by rewrite Hv in Hc.
  - by rewrite Hv in Hf.
Qed.

Lemma run_not_callable f w :
  truthy (window_get w "register_implementors") = true ->
  callable (window_get w "register_implementors") = None ->
  run host f w
  = (Throw (TypeError "window.register_implementors is not a function"),
     State w []).
Proof.
  intros Ht Hc. destruct (run_handshake f w) as [h Hv|_ _|Hf]; [|done|congruence].
  by rewrite Hv in Hc.
Qed.

(** Stashing a registry does not touch [register_implementors]. *)
Lemma stash_keeps_callback w (r : value) :
  window_get (<["pending_implementors" := r]> w) "register_implementors"
  = window_get w "register_implementors".
Proof. unfold window_get. by rewrite lookup_insert_ne. Qed.

End Handshake.








(** ** Two files in one page *)

Section Sequence.

Variable host : fid -> list value -> gmap string value ->
                completion value * gmap string value.



End Sequence.


(** ** The claims about the handshake *)

(** C1 fails as stated: with [register_implementors] set to [true], which
    is truthy, nothing is called. *)
Lemma truthy_value_not_called :
  ~ (truthy (window_get {["register_implementors" := VBool true]}
                        "register_implementors") = true ->
     exists g,
       calls_of (log (run quiet_host DerefMut
                          {["register_implementors" := VBool true]}).2)
       = [(g, [registry DerefMut])]).
Proof.
  intros H. destruct H as [g Hg]; [reflexivity|].
  rewrite run_not_callable in Hg by reflexivity. discriminate Hg.
Qed.

(** C1, amended: every file builds a registry whose keys are crate names
    and whose values are arrays of records carrying a descriptor, and then
    takes one of three paths.  If [window.register_implementors] is a
    function, it is called once, with the registry as sole argument, the
    script writes nothing and the window is the one the function leaves;
    if it is truthy but not callable, a TypeError is raised and nothing is
    called or written; otherwise [window.pending_implementors] is assigned
    the registry. *)
Theorem handshake_performed
        (host : fid -> list value -> gmap string value ->
                completion value * gmap string value)
        (f : file) (w : gmap string value) :
  Forall (fun kv => kv.1 ∈ crates /\
                    exists l, kv.2 = VArr l /\
                              Forall (fun r => is_Some (descriptor_of r)) l)
         (build (assignments f)) /\
  handshake host f w (run host f w).
Proof.
  split; [|apply run_handshake].
  rewrite build_assignments.
  destruct f; cbv [assignments DerefMut_assignments TrySignature_assignments
                   TrySignatureMut_assignments SetSignature_assignments];
    repeat match goal with
           | |- Forall _ _ => constructor
           | |- _ ∈ crates /\ _ => split; [unfold crates; set_solver|]
           | |- exists l, _ /\ _ => eexists; split; [reflexivity|]
           | |- is_Some _ => eexists; vm_compute; reflexivity
           end.
Qed.

(** C7 fails as stated: the page's functions all return, and yet a script
    evaluated with [register_implementors] set to a string throws. *)
Lemma not_callable_raises :
  ~ ((forall g args w, returns_normally quiet_host g args w) ->
     (run quiet_host SetSignature
          {["register_implementors" := VStr "viewer"]}).1 = Normal tt).
Proof.
  intros H. rewrite run_not_callable in H by reflexivity.
  assert (Hret : forall g args w, returns_normally quiet_host g args w).
  { intros g args w. by exists VUndef. }
  specialize (H Hret). discriminate H.
Qed.

(** C7, amended: if [window.register_implementors], when truthy, is
    callable, and the function returns normally when called with the
    registry, then evaluating the file completes normally; and if it is
    truthy but not callable, evaluating the file throws the TypeError of
    the call, in the window as it was and with nothing called or
    written. *)
Theorem evaluation_completes
        (host : fid -> list value -> gmap string value ->
                completion value * gmap string value)
        (f : file) (w : gmap string value) :
  ((truthy (window_get w "register_implementors") = true ->
    is_Some (callable (window_get w "register_implementors"))) ->
   (forall g, callable (window_get w "register_implementors") = Some g ->
              returns_normally host g [registry f] w) ->
   (run host f w).1 = Normal tt) /\
  (truthy (window_get w "register_implementors") = true ->
   callable (window_get w "register_implementors") = None ->
   run host f w
   = (Throw (TypeError "window.register_implementors is not a function"),
      State w [])).
Proof.
  split.
  - intros Hcall Hret.
    destruct (run_handshake host f w) as [g Hv|Ht Hc|Hf]; cbn [fst].
    + destruct (Hret g) as [x Hx]; [by rewrite Hv|]. by rewrite Hx.
    + destruct (Hcall Ht) as [g Hg]. congruence.
    + reflexivity.
  - apply run_not_callable.
Qed.

Lemma evaluation_completes_witness :
  (is_Some (callable (window_get {["register_implementors" := VFun 0]}
                                 "register_implementors")) /\
   (run quiet_host TrySignatureMut {["register_implementors" := VFun 0]}).1
   = Normal tt) /\
  run quiet_host DerefMut {["register_implementors" := VArr []]}
  = (Throw (TypeError "window.register_implementors is not a function"),
     State {["register_implementors" := VArr []]} []).
Proof.
  split; [split|].
  - exists 0. reflexivity.
  - apply (proj1 (evaluation_completes quiet_host TrySignatureMut
                    {["register_implementors" := VFun 0]})).
    + intros _. exists 0. reflexivity.
    + intros g _. exists VUndef. reflexivity.
  - apply (proj2 (evaluation_completes quiet_host DerefMut
                    {["register_implementors" := VArr []]})).
    + reflexivity.
    + reflexivity.
Defined.

(** C10 fails as stated: with [register_implementors] present and holding
    [null], the script writes [pending_implementors]. *)
Lemma present_falsy_callback_stashed :
  ~ (is_Some (({["register_implementors" := VNull]} : gmap string value)
                !! "register_implementors") ->
     writes_of (log (run quiet_host SetSignature
                         {["register_implementors" := VNull]}).2) = []).
Proof.
  intros H. rewrite run_falsy in H by reflexivity.
  assert (Hp : is_Some (({["register_implementors" := VNull]}
                           : gmap string value) !! "register_implementors")).
  { exists VNull. reflexivity. }
  specialize (H Hp). discriminate H.
Qed.

(** C10, amended: the script writes no window property except, when
    [register_implementors] is falsy (missing, or present with a falsy
    value), [pending_implementors].  With a truthy
    [register_implementors] the script makes no write, and the window is
    the initial one or the one the called function leaves; otherwise the
    only write stores the registry under [pending_implementors], and every
    other property is as before. *)
Theorem frame
        (host : fid -> list value -> gmap string value ->
                completion value * gmap string value)
        (f : file) (w : gmap string value) :
  let v := window_get w "register_implementors" in
  let s := (run host f w).2 in
  if truthy v then
    writes_of (log s) = [] /\
    win s = match callable v with
            | Some g => (host g [registry f] w).2
            | None => w
            end
  else
    writes_of (log s) = [("pending_implementors", registry f)] /\
    calls_of (log s) = [] /\
    win s !! "pending_implementors" = Some (registry f) /\
    delete "pending_implementors" (win s) = delete "pending_implementors" w.
Proof.
  intros v s. subst v s.
  destruct (run_handshake host f w) as [g Hv|Ht Hc|Hf]; cbn [snd win log].
  - by rewrite Hv.
  - by rewrite Ht, Hc.
  - rewrite Hf. repeat split.
    + apply lookup_insert_eq.
    + apply delete_insert_eq.
Qed.




(** * Further properties of the scripts *)

(** ** Assignments to the registry *)

Section Assignments.

Local Open Scope list_scope.


End Assignments.



(** X2: in every file, reading a name that [Object.prototype] does not
    define gives an array exactly when the name is one of the four crates
    listed, also when the crate has no implementors, and [undefined]
    otherwise. *)
Theorem registry_lookup (f : file) (k : string) :
  inherited k = false ->
  match get_prop (build (assignments f)) k with
  | VArr _ => k ∈ crates
  | VUndef => k ∉ crates
  | _ => False
  end.
Proof.
  intros _. destruct (decide (k ∈ crates)) as [Hin|Hn].
  - pose proof Hin as Hk. unfold crates in Hin.
    repeat (apply elem_of_cons in Hin as [->|Hin]);
      try (by destruct f; vm_compute).
    by apply elem_of_nil in Hin.
  - rewrite get_prop_absent; [done|].
    by rewrite build_assignments; unfold keys; rewrite assignment_keys.
Qed.

Lemma registry_lookup_witness :
  match get_prop (build (assignments TrySignature)) "identity_core" with
  | VArr _ => "identity_core" ∈ crates
  | VUndef => "identity_core" ∉ crates
  | _ => False
  end /\
  match get_prop (build (assignments DerefMut)) "identity_account" with
  | VArr _ => "identity_account" ∈ crates
  | VUndef => "identity_account" ∉ crates
  | _ => False
  end.
Proof.
  split.
  - apply (registry_lookup TrySignature "identity_core"). reflexivity.
  - apply (registry_lookup DerefMut "identity_account"). reflexivity.
Defined.

(** X3: within a file no descriptor text is listed twice, across all of
    its crates. *)
Theorem texts_distinct (f : file) : NoDup (texts f).
Proof. destruct f; apply (bool_decide_unpack _); by vm_compute. Qed.

(** X4: the TrySignatureMut records are the TrySignature records with the
    trait replaced for every crate except identity_iota, where
    trait.TrySignatureMut.js lists DocumentDiff and Document, in that
    order. *)
Theorem try_signature_mut_listing :
  (forall crate : string,
     mapM (retrait "TrySignatureMut") (crate_list TrySignature crate)
     = Some (crate_list TrySignatureMut crate)
     <-> crate <> "identity_iota") /\
  implementing_types TrySignatureMut "identity_iota"
  = Some ["DocumentDiff"; "Document"].
Proof.
  split; [|by vm_compute].
  intros crate. unfold crate_list.
  destruct (decide (crate ∈ crates)) as [Hin|Hn].
  - unfold crates in Hin.
    repeat (apply elem_of_cons in Hin as [->|Hin]);
      try (by split; [intros _; discriminate | intros _; vm_compute]).
    + split; [by vm_compute | done].
    + by apply elem_of_nil in Hin.
  - split.
    + intros _ ->. apply Hn. unfold crates. set_solver.
    + intros _. rewrite !get_prop_absent; [done| |];
        by rewrite build_assignments; unfold keys; rewrite assignment_keys.
Qed.

(** ** Several scripts, and what a script depends on *)

(** X5: with no callback installed, any number of files evaluated one
    after the other all complete normally; each performs the one write
    to [pending_implementors], and the window ends as the initial one with
    [pending_implementors] holding the registry of the last file (the
    initial window if there was no file). *)
Theorem sequence_without_callback
        (host : fid -> list value -> gmap string value ->
                completion value * gmap string value)
        (fs : list file) (w : gmap string value) :
  truthy (window_get w "register_implementors") = false ->
  run_all host fs w
  = (map (fun _ => Normal tt) fs,
     match last fs with
     | Some g => <["pending_implementors" := registry g]> w
     | None => w
     end) /\
  trace_all host fs w
  = map (fun f => EvWrite "pending_implementors" (registry f)) fs.
Proof.
  revert w. induction fs as [|f fs IH]; intros w Hf; [by split|].
  cbn [run_all trace_all map]. rewrite (run_falsy host f w Hf). cbn [fst snd win log].
  destruct (IH (<["pending_implementors" := registry f]> w)) as [Hrun Htr].
  { by rewrite stash_keeps_callback. }
  rewrite Hrun, Htr. cbn [fst snd]. split; [|done]. f_equal.
  destruct fs as [|g fs]; [done|].
  change (last (f :: g :: fs)) with (last (g :: fs)).
  destruct (last (g :: fs)) eqn:E; [apply insert_insert_eq|].
  by apply last_None in E.
Qed.

Lemma sequence_without_callback_witness :
  run_all quiet_host [SetSignature; DerefMut; TrySignature]
          {["pending_implementors" := VNull]}
  = ([Normal tt; Normal tt; Normal tt],
     <["pending_implementors" := registry TrySignature]>
       {["pending_implementors" := VNull]}).
Proof.
  apply (sequence_without_callback quiet_host
           [SetSignature; DerefMut; TrySignature]
           {["pending_implementors" := VNull]}).
  reflexivity.
Defined.

(** X6: when [register_implementors] is a function that stays installed
    across its own calls, the scripts of any sequence of files do nothing
    but call it, once per file and in load order, each with the registry of
    its file; this holds whether or not the calls throw. *)
Theorem sequence_with_callback
        (host : fid -> list value -> gmap string value ->
                completion value * gmap string value)
        (h : fid) (fs : list file) (w : gmap string value) :
  (forall args w', window_get w' "register_implementors" = VFun h ->
                   window_get (host h args w').2 "register_implementors" = VFun h) ->
  window_get w "register_implementors" = VFun h ->
  trace_all host fs w = map (fun f => EvCall h [registry f]) fs.
Proof.
  intros Hkeep. revert w. induction fs as [|f fs IH]; intros w Hv; [done|].
  cbn [trace_all map]. rewrite (run_function host f w h Hv). cbn [fst snd win log].
  rewrite IH; [done|]. by apply Hkeep.
Qed.

Lemma sequence_with_callback_witness :
  trace_all quiet_host [DerefMut; TrySignatureMut]
            {["register_implementors" := VFun 7]}
  = [EvCall 7 [registry DerefMut]; EvCall 7 [registry TrySignatureMut]].
Proof.
  apply (sequence_with_callback quiet_host 7 [DerefMut; TrySignatureMut]
           {["register_implementors" := VFun 7]}).
  - intros args w' Hw'. exact Hw'.
  - reflexivity.
Defined.

(** X7: evaluating a file throws [e] exactly when
    [register_implementors] is a function whose call with the registry
    throws [e], or is truthy but not callable and [e] is the TypeError of
    the call; the script catches nothing and raises nothing else. *)
Theorem failure_characterised
        (host : fid -> list value -> gmap string value ->
                completion value * gmap string value)
        (f : file) (w : gmap string value) (e : exn) :
  (run host f w).1 = Throw e <->
  (exists h, window_get w "register_implementors" = VFun h /\
             (host h [registry f] w).1 = Throw e) \/
  (truthy (window_get w "register_implementors") = true /\
   callable (window_get w "register_implementors") = None /\
   e = TypeError "window.register_implementors is not a function").
Proof.
  split.
  - destruct (run_handshake host f w) as [h Hv|Ht Hc|Hf]; cbn [fst].
    + intros He. left. exists h. split; [done|].
      revert He. destruct ((host h [registry f] w).1) as [x|e']; [done|].
      by intros [= ->].
    + intros [= <-]. by right.
    + done.
  - intros [(h & Hv & He)|(Ht & Hc & ->)].
    + rewrite (run_function host f w h Hv). cbn [fst]. by rewrite He.
    + by rewrite run_not_callable.
Qed.

(** X8: a [register_implementors] that is missing, or present but
    falsy ([undefined], [null], [false], a zero, NaN, [0n] or the empty
    string), makes the script stash the registry: it completes normally,
    its only action is the write to [pending_implementors], and no
    TypeError is raised. *)
Theorem falsy_callback_stashes
        (host : fid -> list value -> gmap string value ->
                completion value * gmap string value)
        (f : file) (w : gmap string value) :
  (w !! "register_implementors" = None \/
   exists v, w !! "register_implementors" = Some v /\
             (v = VUndef \/ v = VNull \/ v = VBool false \/
              (exists s, v = VNum (S754_zero s)) \/ v = VNum S754_nan \/
              v = VBigInt 0 \/ v = VStr "")) ->
  run host f w
  = (Normal tt,
     State (<["pending_implementors" := registry f]> w)
           [EvWrite "pending_implementors" (registry f)]).
Proof.
  intros H. apply run_falsy. unfold window_get.
  destruct H as [->|(v & -> & H)]; [done|].
  destruct H as [->|[->|[->|[[s ->]|[->|[->| ->]]]]]]; done.
Qed.

Lemma falsy_callback_stashes_witness :
  run quiet_host TrySignature
      {["register_implementors" := VNum (S754_zero true)]}
  = (Normal tt,
     State (<["pending_implementors" := registry TrySignature]>
              {["register_implementors" := VNum (S754_zero true)]})
           [EvWrite "pending_implementors" (registry TrySignature)]).
Proof.
  apply (falsy_callback_stashes quiet_host TrySignature
           {["register_implementors" := VNum (S754_zero true)]}).
  right. exists (VNum (S754_zero true)). split; [reflexivity|].
  right. right. right. left. exists true. reflexivity.
Defined.

(** X9: what a script does depends on [register_implementors] alone: in
    two windows that agree on that property, and whatever the page's
    functions do, the script performs the same actions. *)
Theorem actions_depend_on_callback_only
        (host host' : fid -> list value -> gmap string value ->
                      completion value * gmap string value)
        (f : file) (w w' : gmap string value) :
  window_get w "register_implementors" = window_get w' "register_implementors" ->
  log (run host f w).2 = log (run host' f w').2.
Proof.
  intros Heq.
  destruct (run_handshake host f w) as [h Hv|Ht Hc|Hf]; cbn [snd log].
  - rewrite Heq in Hv. by rewrite (run_function host' f w' h Hv).
  - rewrite Heq in Ht, Hc. by rewrite run_not_callable.
  - rewrite Heq in Hf. by rewrite run_falsy.
Qed.

Lemma actions_depend_on_callback_only_witness :
  log (run quiet_host SetSignature {["register_implementors" := VFun 1]}).2
  = log (run (fun _ _ _ => (Throw (Thrown VNull), ∅)) SetSignature
             {["register_implementors" := VFun 1;
               "pending_implementors" := VStr "old"]}).2.
Proof.
  apply (actions_depend_on_callback_only quiet_host
           (fun _ _ _ => (Throw (Thrown VNull), ∅)) SetSignature
           {["register_implementors" := VFun 1]}
           {["register_implementors" := VFun 1;
             "pending_implementors" := VStr "old"]}).
  reflexivity.
Defined.

(** X10: both paths of the handshake hand over the same object: the value
    a script leaves in [pending_implementors] when no callback is installed
    is the sole argument it passes to the callback when one is. *)
Theorem same_registry_on_both_paths
        (host : fid -> list value -> gmap string value ->
                completion value * gmap string value)
        (f : file) (h : fid) (w : gmap string value) :
  truthy (window_get w "register_implementors") = false ->
  exists r,
    win (run host f w).2 !! "pending_implementors" = Some r /\
    calls_of (log (run host f (<["register_implementors" := VFun h]> w)).2)
    = [(h, [r])].
Proof.
  intros Hf. exists (registry f). split.
  - rewrite run_falsy by done. apply lookup_insert_eq.
  - rewrite (run_function host f _ h); [done|].
    unfold window_get. by rewrite lookup_insert_eq.
Qed.

Lemma same_registry_on_both_paths_witness :
  exists r,
    win (run quiet_host DerefMut ∅).2 !! "pending_implementors" = Some r /\
    calls_of (log (run quiet_host DerefMut
                       (<["register_implementors" := VFun 3]> ∅)).2)
    = [(3, [r])].
Proof.
  apply (same_registry_on_both_paths quiet_host DerefMut 3 ∅). reflexivity.
Defined.
